(** * Electrolyte equations of PyBaMM: a shallow embedding

    Source: [src/pybamm/models/components/electrolyte.py], class
    [Electrolyte].  The class keeps three attributes ([param], [operators],
    [mesh]) that [set_simulation] assigns, and six evaluation methods that
    read them.  The methods are embedded in a small state-and-exception
    monad over the attribute record, so that both the value a call returns
    (or the exception it raises) and the attributes it leaves behind are
    visible in the statements.

    NumPy arrays of rank one are lists over an abstract scalar type; the
    scalar arithmetic of the array dtype is an interface ([Scalar]).  The
    parameter set, the spatial operators and the mesh are collaborators
    whose code is not part of this file: they enter as records of values and
    of functions (a call into them changes no attribute), the operators
    being allowed to raise. *)

From Stdlib Require Import QArith.
From stdpp Require Import gmap strings list.

Local Open Scope string_scope.
Local Open Scope list_scope.

(** ** Exceptions and results *)

(** The Python exceptions the methods can end in.  [OperatorError] stands for
    whatever an operator of the collaborating library raises by itself. *)
Inductive exn : Type :=
| AttributeError
| KeyError
| UnboundLocalError
| ValueError
| ZeroDivisionError
| OperatorError (msg : string).

Inductive res (A : Type) : Type :=
| OK (a : A)
| Raise (e : exn).
Arguments OK {A} a.
Arguments Raise {A} e.

Definition res_map {A B : Type} (f : A -> B) (r : res A) : res B :=
  match r with
  | OK a => OK (f a)
  | Raise e => Raise e
  end.

(** ** Scalars *)

(** Arithmetic of the numbers.  [sdiv] is the quotient where the divisor is
    not zero, and [sis_zero] is the test [x == 0]. *)
Class Scalar (F : Type) : Type := {
  szero : F;
  sone : F;
  sadd : F -> F -> F;
  ssub : F -> F -> F;
  smul : F -> F -> F;
  sdiv : F -> F -> F;
  sneg : F -> F;
  sis_zero : F -> bool
}.

(** [x / y] between two Python numbers, under
    [from __future__ import division]: [ZeroDivisionError] when [y == 0]. *)
Definition truediv {F : Type} `{Scalar F} (x y : F) : res F :=
  if sis_zero y then Raise ZeroDivisionError else OK (sdiv x y).

(** The two laws of the arithmetic that statements below rest on. *)
Class ScalarLaws (F : Type) `{Scalar F} : Prop := {
  sadd_comm : forall x y : F, sadd x y = sadd y x;
  smul_1_r : forall x : F, smul x sone = x
}.

(** ** The part of NumPy the class uses *)

Module np.
Section Arrays.
Context {F : Type} `{Scalar F}.

(** [np.array([x])]. *)
Definition array (l : list F) : list F := l.

(** [np.ones_like(a)]: ones in the shape of [a]. *)
Definition ones_like (a : list F) : list F := map (fun _ => sone) a.

(** [np.concatenate([a, b, c])] on rank-one arrays. *)
Definition concatenate (parts : list (list F)) : list F := concat parts.

(** Unary minus, [-a]. *)
Definition negative (a : list F) : list F := map sneg a.

(** [x * a] for a scalar [x]. *)
Definition scale (x : F) (a : list F) : list F := map (smul x) a.

(** A binary ufunc on two rank-one arrays: shapes [(m,)] and [(n,)]
    broadcast when [m = n] or one of them is 1; otherwise the call raises
    [ValueError] (operands could not be broadcast together). *)
Definition broadcast (op : F -> F -> F) (a b : list F) : res (list F) :=
  if decide (length a = length b) then OK (zip_with op a b)
  else match a, b with
       | [x], _ => OK (map (op x) b)
       | _, [y] => OK (map (fun x => op x y) a)
       | _, _ => Raise ValueError
       end.

Definition add : list F -> list F -> res (list F) := broadcast sadd.
Definition subtract : list F -> list F -> res (list F) := broadcast ssub.

(** [np.diff(a)]; the collaborating finite-volume operators are built on
    it, and so is the operator set used for the examples below. *)
Fixpoint diff (a : list F) : list F :=
  match a with
  | x :: (y :: _) as t => ssub y x :: diff t
  | _ => []
  end.
End Arrays.
End np.

(** ** The contexts *)

Section Model.
Context {F : Type} `{Scalar F}.

(** [pybamm.parameters.Parameters], as far as the class reads it. *)
Record Parameters : Type := {
  c0 : F;
  s : F;
  gamma_dl_n : F;
  gamma_dl_p : F;
  icell : F -> F;
  U_Pb : F -> F;
  U_PbO2 : F -> F
}.

(** The operators of one domain: [grad] and [div] on arrays. *)
Record Operator : Type := {
  grad : list F -> res (list F);
  div : list F -> res (list F)
}.

(** [pybamm.mesh.Mesh]: the cell centres of the three domains. *)
Record Mesh : Type := {
  xc : list F;
  xcn : list F;
  xcp : list F
}.

(** The instance: its three attributes, absent until assigned. *)
Record Electrolyte : Type := {
  param : option Parameters;
  operators : option (gmap string Operator);
  mesh : option Mesh
}.

(** ** The monad of a method body *)

Definition M (A : Type) : Type := Electrolyte -> res A * Electrolyte.

Definition ret {A : Type} (a : A) : M A := fun self => (OK a, self).

Definition raise {A : Type} (e : exn) : M A := fun self => (Raise e, self).

Definition bind {A B : Type} (m : M A) (k : A -> M B) : M B :=
  fun self =>
    match m self with
    | (OK a, self') => k a self'
    | (Raise e, self') => (Raise e, self')
    end.

(** A call into NumPy or into an operator: the attributes are not involved. *)
Definition lift {A : Type} (r : res A) : M A := fun self => (r, self).

(** [self.a]: [AttributeError] when the attribute was never assigned. *)
Definition getattr {A : Type} (a : Electrolyte -> option A) : M A :=
  fun self =>
    match a self with
    | Some v => (OK v, self)
    | None => (Raise AttributeError, self)
    end.

(** [self.a = v] for each of the three attributes. *)
Definition setattr_param (v : Parameters) : M unit :=
  fun self =>
    (OK tt, {| param := Some v; operators := operators self; mesh := mesh self |}).

Definition setattr_operators (v : gmap string Operator) : M unit :=
  fun self =>
    (OK tt, {| param := param self; operators := Some v; mesh := mesh self |}).

Definition setattr_mesh (v : Mesh) : M unit :=
  fun self =>
    (OK tt, {| param := param self; operators := operators self; mesh := Some v |}).

(** [ops[domain]]: [KeyError] when the domain has no entry. *)
Definition getitem (ops : gmap string Operator) (domain : string) : M Operator :=
  match ops !! domain with
  | Some o => ret o
  | None => raise KeyError
  end.

(** Reading a local variable that some branch may have left unassigned. *)
Definition local {A : Type} (v : option A) : M A :=
  match v with
  | Some a => ret a
  | None => raise UnboundLocalError
  end.

(** A computation that leaves the attributes as it found them, whatever
    it returns or raises. *)
Definition read_only {A : Type} (m : M A) : Prop :=
  forall self, snd (m self) = self.
End Model.

Arguments Parameters F : clear implicits.
Arguments Operator F : clear implicits.
Arguments Mesh F : clear implicits.
Arguments Electrolyte F : clear implicits.
Arguments M F A : clear implicits.

Notation "'let*' x ':=' m 'in' k" := (bind m (fun x => k))
  (at level 10, x name, m at level 100, k at level 200).

(** ** The methods of [Electrolyte] *)

Section Methods.
Context {F : Type} `{Scalar F}.

(** A pair of boundary arrays, [(left, right)]. *)
Definition bcs : Type := (list F * list F)%type.

(** [set_simulation(self, param, operators, mesh)]. *)
Definition set_simulation (p : Parameters F) (ops : gmap string (Operator F))
    (m : Mesh F) : M F unit :=
  let* _ := setattr_param p in
  let* _ := setattr_operators ops in
  setattr_mesh m.

(** [initial_conditions(self)]: the three arrays, in a dict. *)
Definition initial_conditions : M F (gmap string (list F)) :=
  let* p := getattr param in
  let* m := getattr mesh in
  let c0_ := np.scale (c0 p) (np.ones_like (xc m)) in
  let* p1 := getattr param in
  let* p2 := getattr param in
  let* m := getattr mesh in
  let en0 := np.scale (U_Pb p1 (c0 p2)) (np.ones_like (xcn m)) in
  let* p1 := getattr param in
  let* p2 := getattr param in
  let* m := getattr mesh in
  let ep0 := np.scale (U_PbO2 p1 (c0 p2)) (np.ones_like (xcp m)) in
  ret (<["ep" := ep0]> (<["en" := en0]> (<["c" := c0_]> ∅))).

(** [cation_conservation(self, c, j, flux_bcs)]. *)
Definition cation_conservation (c j : list F) (flux_bcs : bcs) : M F (list F) :=
  let* ops := getattr operators in
  let* o := getitem ops "xc" in
  let* g := lift (grad o c) in
  let N_internal := np.negative g in
  let '(flux_bc_left, flux_bc_right) := flux_bcs in
  let N := np.concatenate [flux_bc_left; N_internal; flux_bc_right] in
  let* ops := getattr operators in
  let* o := getitem ops "xc" in
  let* d := lift (div o N) in
  let* p := getattr param in
  let* dcdt := lift (np.add (np.negative d) (np.scale (s p) j)) in
  ret dcdt.

(** [bcs_cation_flux(self)]. *)
Definition bcs_cation_flux : M F bcs :=
  let flux_bc_left := np.array [szero] in
  let flux_bc_right := np.array [szero] in
  ret (flux_bc_left, flux_bc_right).

(** [macinnes(self, domain, c, e, current_bcs)]. *)
Definition macinnes (domain : string) (c e : list F) (current_bcs : bcs)
    : M F (list F) :=
  let* ops := getattr operators in
  let* o := getitem ops domain in
  let kappa_over_c := sone in
  let kappa := sone in
  let* gc := lift (grad o c) in
  let* ge := lift (grad o e) in
  let* i_inner := lift (np.add (np.scale kappa_over_c gc) (np.scale kappa ge)) in
  let '(lbc, rbc) := current_bcs in
  ret (np.concatenate [lbc; i_inner; rbc]).

(** [current_conservation(self, domain, c, e, j, current_bcs)].  The local
    [gamma_dl] is assigned in the two branches only; it is read first in
    [1 / gamma_dl], and the division is done, before the operator is looked
    up. *)
Definition current_conservation (domain : string) (c e j : list F)
    (current_bcs : bcs) : M F (list F) :=
  let* i := macinnes domain c e current_bcs in
  let* gamma_dl :=
    (if String.eqb domain "xcn" then
       let* p := getattr param in ret (Some (gamma_dl_n p))
     else if String.eqb domain "xcp" then
       let* p := getattr param in ret (Some (gamma_dl_p p))
     else ret None) in
  let* gamma := local gamma_dl in
  let* k := lift (truediv sone gamma) in
  let* ops := getattr operators in
  let* o := getitem ops domain in
  let* d := lift (div o i) in
  let* r := lift (np.subtract d j) in
  ret (np.scale k r).

(** [bcs_current(self, domain, t)].  Both locals are assigned in the two
    branches only and read in the [return]. *)
Definition bcs_current (domain : string) (t : F) : M F bcs :=
  let* locals :=
    (if String.eqb domain "xcn" then
       let current_bc_left := np.array [szero] in
       let* p := getattr param in
       let current_bc_right := np.array [icell p t] in
       ret (Some current_bc_left, Some current_bc_right)
     else if String.eqb domain "xcp" then
       let* p := getattr param in
       let current_bc_left := np.array [icell p t] in
       let current_bc_right := np.array [szero] in
       ret (Some current_bc_left, Some current_bc_right)
     else ret (None, None)) in
  let* current_bc_left := local (fst locals) in
  let* current_bc_right := local (snd locals) in
  ret (current_bc_left, current_bc_right).
End Methods.

(** ** A configuration to run the methods on

    Rational scalars, and for every domain the finite-volume operators on a
    mesh of unit spacing: [grad] takes the differences of neighbouring cells
    (one value per interior face), [div] the differences of neighbouring
    faces (one value per cell). *)

#[export] Instance Q_scalar : Scalar Q := {|
  szero := 0%Q;
  sone := 1%Q;
  sadd := Qplus;
  ssub := Qminus;
  smul := Qmult;
  sdiv := Qdiv;
  sneg := Qopp;
  sis_zero := fun x => Qeq_bool x 0%Q
|}.

Definition unit_fv : Operator Q := {|
  grad := fun y => OK (np.diff y);
  div := fun N => OK (np.diff N)
|}.

Definition demo_operators : gmap string (Operator Q) :=
  <["xcp" := unit_fv]> (<["xcn" := unit_fv]> (<["xc" := unit_fv]> ∅)).

Definition demo_param : Parameters Q := {|
  c0 := 1%Q;
  s := (1 # 2)%Q;
  gamma_dl_n := 2%Q;
  gamma_dl_p := 4%Q;
  icell := fun _ => 5%Q;
  U_Pb := fun c => Qplus c 1%Q;
  U_PbO2 := fun c => Qmult 3%Q c
|}.

Definition demo_mesh : Mesh Q := {|
  xc := [1%Q; 2%Q; 3%Q];
  xcn := [1%Q; 2%Q];
  xcp := [2%Q; 3%Q]
|}.

Definition unconfigured : Electrolyte Q :=
  {| param := None; operators := None; mesh := None |}.

Definition demo : Electrolyte Q :=
  snd (set_simulation demo_param demo_operators demo_mesh unconfigured).

(** Instances for the exceptional paths: an operator set whose gradient
    raises, one whose divergence raises, and instances that miss an
    attribute. *)
Definition no_grad : Operator Q := {|
  grad := fun _ => Raise (OperatorError "grad");
  div := fun N => OK (np.diff N)
|}.

Definition no_div : Operator Q := {|
  grad := fun y => OK (np.diff y);
  div := fun _ => Raise (OperatorError "div")
|}.

Definition with_operators (ops : gmap string (Operator Q)) : Electrolyte Q :=
  {| param := Some demo_param; operators := Some ops; mesh := Some demo_mesh |}.

Definition demo_no_param : Electrolyte Q :=
  {| param := None; operators := Some demo_operators; mesh := Some demo_mesh |}.

Definition zero_gamma_param : Parameters Q := {|
  c0 := 1%Q;
  s := (1 # 2)%Q;
  gamma_dl_n := 0%Q;
  gamma_dl_p := 4%Q;
  icell := fun _ => 5%Q;
  U_Pb := fun c => Qplus c 1%Q;
  U_PbO2 := fun c => Qmult 3%Q c
|}.

Definition demo_zero_gamma : Electrolyte Q :=
  {| param := Some zero_gamma_param; operators := Some demo_operators;
     mesh := Some demo_mesh |}.

Definition demo_no_operators : Electrolyte Q :=
  {| param := Some demo_param; operators := None; mesh := Some demo_mesh |}.

(** ** What a method reads *)

(** A computation gives the same result, value or exception, on any two
    instances related by [R]. *)
Definition same_on {F A : Type} (R : Electrolyte F -> Electrolyte F -> Prop)
    (m : M F A) : Prop :=
  forall self1 self2, R self1 self2 -> fst (m self1) = fst (m self2).

(** * Properties *)

(** ** The arithmetic of the rationals has the two laws *)

Lemma Q_scalar_laws : ScalarLaws Q.
Proof.
  split.
  - intros [a b] [c d]. cbn. unfold Qplus. cbn.
    f_equal; [ apply Z.add_comm | apply Pos.mul_comm ].
  - intros [a b]. cbn. unfold Qmult. cbn.
    f_equal; [ apply Z.mul_1_r | apply Pos.mul_1_r ].
Qed.

(** ** Arrays *)

Section ArrayFacts.
Context {F : Type} `{Scalar F}.

Lemma length_ones_like (a : list F) : length (np.ones_like a) = length a.
Proof. unfold np.ones_like. apply length_map. Qed.

Lemma length_negative (a : list F) : length (np.negative a) = length a.
Proof. unfold np.negative. apply length_map. Qed.

Lemma length_scale (x : F) (a : list F) : length (np.scale x a) = length a.
Proof. unfold np.scale. apply length_map. Qed.

Lemma concatenate_3 (a b c : list F) : np.concatenate [a; b; c] = a ++ b ++ c.
Proof. unfold np.concatenate. cbn. by rewrite app_nil_r. Qed.

(** Arrays of one length: the ufunc works entry by entry. *)
Lemma broadcast_same (op : F -> F -> F) (a b : list F) :
  length a = length b -> np.broadcast op a b = OK (zip_with op a b).
Proof. intros E. unfold np.broadcast. by rewrite decide_True. Qed.

(** The only shapes a ufunc refuses. *)
Lemma broadcast_raises (op : F -> F -> F) (a b : list F) :
  np.broadcast op a b = Raise ValueError <->
  length a <> length b /\ length a <> 1 /\ length b <> 1.
Proof.
  unfold np.broadcast. destruct (decide (length a = length b)) as [E|E].
  - split; [ discriminate | tauto ].
  - destruct a as [|x [|x' a]], b as [|y [|y' b]]; cbn in *;
      (split; [ try discriminate; intros _; repeat split; lia
              | intros (? & ? & ?); try reflexivity; try lia ]).
Qed.

Lemma zip_with_comm (op : F -> F -> F) (a b : list F) :
  (forall x y, op x y = op y x) -> zip_with op a b = zip_with op b a.
Proof.
  intros C. revert b. induction a as [|x a IH]; intros [|y b]; cbn; try done.
  by rewrite C, IH.
Qed.

Lemma broadcast_comm (op : F -> F -> F) (a b : list F) :
  (forall x y, op x y = op y x) -> np.broadcast op a b = np.broadcast op b a.
Proof.
  intros C. unfold np.broadcast.
  destruct (decide (length a = length b)) as [E|E].
  - rewrite decide_True by done. f_equal. by apply zip_with_comm.
  - rewrite decide_False by done.
    destruct a as [|x [|x' a]], b as [|y [|y' b]]; cbv beta iota; try done;
      apply (f_equal OK); apply map_ext; intros; apply C.
Qed.

Lemma scale_ones `{!ScalarLaws F} (x : F) (a : list F) :
  np.scale x (np.ones_like a) = replicate (length a) x.
Proof.
  unfold np.scale, np.ones_like. induction a as [|y a IH]; cbn; [ done | ].
  by rewrite smul_1_r, IH.
Qed.
End ArrayFacts.

(** ** The monad *)

Section MonadFacts.
Context {F : Type}.
Implicit Types self : Electrolyte F.

Lemma bind_OK {A B} (m : M F A) (k : A -> M F B) self a self' :
  m self = (OK a, self') -> bind m k self = k a self'.
Proof. intros E. unfold bind. by rewrite E. Qed.

Lemma bind_Raise {A B} (m : M F A) (k : A -> M F B) self e self' :
  m self = (Raise e, self') -> bind m k self = (Raise e, self').
Proof. intros E. unfold bind. by rewrite E. Qed.

(** The first computation of a bind can be replaced by one that does the
    same on the instance at hand. *)
Lemma bind_same {A B} (m1 m2 : M F A) (k : A -> M F B) self :
  m1 self = m2 self -> bind m1 k self = bind m2 k self.
Proof. intros E. unfold bind. by rewrite E. Qed.

Lemma getattr_Some {A} (a : Electrolyte F -> option A) self v :
  a self = Some v -> getattr a self = (OK v, self).
Proof. intros E. unfold getattr. by rewrite E. Qed.

Lemma getattr_None {A} (a : Electrolyte F -> option A) self :
  a self = None -> getattr a self = (Raise AttributeError, self).
Proof. intros E. unfold getattr. by rewrite E. Qed.

Lemma getitem_Some (ops : gmap string (Operator F)) d o self :
  ops !! d = Some o -> getitem ops d self = (OK o, self).
Proof. intros E. unfold getitem. by rewrite E. Qed.

Lemma getitem_None (ops : gmap string (Operator F)) d self :
  ops !! d = None -> getitem ops d self = (Raise KeyError, self).
Proof. intros E. unfold getitem. by rewrite E. Qed.

(** A read-only computation returns the instance it was given. *)
Lemma read_only_run {A} (m : M F A) self :
  read_only m -> m self = (fst (m self), self).
Proof. intros R. specialize (R self). destruct (m self); cbn in *. by subst. Qed.

Lemma read_only_ret {A} (a : A) : read_only (F := F) (ret a).
Proof. by intros self. Qed.

Lemma read_only_raise {A} (e : exn) : read_only (F := F) (A := A) (raise e).
Proof. by intros self. Qed.

Lemma read_only_lift {A} (r : res A) : read_only (F := F) (lift r).
Proof. by intros self. Qed.

Lemma read_only_getattr {A} (a : Electrolyte F -> option A) :
  read_only (getattr a).
Proof. intros self. unfold getattr. by destruct (a self). Qed.

Lemma read_only_getitem (ops : gmap string (Operator F)) d :
  read_only (getitem ops d).
Proof. intros self. unfold getitem. by destruct (ops !! d). Qed.

Lemma read_only_local {A} (v : option A) : read_only (F := F) (local v).
Proof. intros self. by destruct v. Qed.

Lemma read_only_bind {A B} (m : M F A) (k : A -> M F B) :
  read_only m -> (forall a, read_only (k a)) -> read_only (bind m k).
Proof.
  intros Rm Rk self. unfold bind. specialize (Rm self).
  destruct (m self) as [[a|e] self']; cbn in *; subst; [ apply Rk | done ].
Qed.
End MonadFacts.

Create HintDb frame.

#[local] Hint Resolve read_only_ret read_only_raise read_only_lift
  read_only_getattr read_only_getitem read_only_local : frame.

(** Walks through a method body, one bind at a time. *)
Ltac frame :=
  repeat first
    [ apply read_only_bind; [ | intros ? ]
    | match goal with
      | |- read_only (if ?b then _ else _) => destruct b
      | |- read_only (let '(_, _) := ?x in _) => destruct x
      end
    | solve [ auto with frame ] ].

Section Frames.
Context {F : Type} `{Scalar F}.

Lemma initial_conditions_frame : read_only (F := F) initial_conditions.
Proof. unfold initial_conditions. frame. Qed.

Lemma cation_conservation_frame (c j : list F) (flux_bcs : bcs) :
  read_only (cation_conservation c j flux_bcs).
Proof. unfold cation_conservation. frame. Qed.

Lemma bcs_cation_flux_frame : read_only (F := F) bcs_cation_flux.
Proof. unfold bcs_cation_flux. frame. Qed.

Lemma macinnes_frame (d : string) (c e : list F) (current_bcs : bcs) :
  read_only (macinnes d c e current_bcs).
Proof. unfold macinnes. frame. Qed.

Lemma current_conservation_frame (d : string) (c e j : list F)
    (current_bcs : bcs) :
  read_only (current_conservation d c e j current_bcs).
Proof.
  unfold current_conservation.
  apply read_only_bind; [ apply macinnes_frame | intros i ]. frame.
Qed.

Lemma bcs_current_frame (d : string) (t : F) : read_only (bcs_current d t).
Proof. unfold bcs_current. frame. Qed.

Lemma set_simulation_run (p : Parameters F) (ops : gmap string (Operator F))
    (m : Mesh F) (self : Electrolyte F) :
  set_simulation p ops m self =
  (OK tt, {| param := Some p; operators := Some ops; mesh := Some m |}).
Proof. reflexivity. Qed.
End Frames.

(** ** Boundary conditions and initial conditions *)

Section Boundaries.
Context {F : Type} `{Scalar F}.

(** C8. [bcs_cation_flux()] is constant: on every instance, configured or
    not and whatever was called before, it returns the pair of one-entry
    arrays ([0], [0]) and leaves the instance as it was. *)
Theorem bcs_cation_flux_constant (self : Electrolyte F) :
  bcs_cation_flux self = (OK ([szero], [szero]), self).
Proof. reflexivity. Qed.

(** C6. For every time [t], on a configured instance,
    [bcs_current("xcn", t)] returns ([0], [icell(t)]),
    [bcs_current("xcp", t)] returns ([icell(t)], [0]), and either result is
    the other with its two sides exchanged. *)
Theorem bcs_current_spec (self : Electrolyte F) (p : Parameters F) (t : F) :
  param self = Some p ->
  bcs_current "xcn" t self = (OK ([szero], [icell p t]), self) /\
  bcs_current "xcp" t self = (OK ([icell p t], [szero]), self) /\
  fst (bcs_current "xcp" t self) =
    res_map prod_swap (fst (bcs_current "xcn" t self)).
Proof.
  intros Hp.
  assert (bcs_current "xcn" t self = (OK ([szero], [icell p t]), self)) as E1.
  { unfold bcs_current. cbn [String.eqb Ascii.eqb Bool.eqb].
    rewrite (bind_OK _ _ self (Some [szero], Some [icell p t]) self); [ done | ].
    by rewrite (bind_OK _ _ self p self (getattr_Some _ _ _ Hp)). }
  assert (bcs_current "xcp" t self = (OK ([icell p t], [szero]), self)) as E2.
  { unfold bcs_current. cbn [String.eqb Ascii.eqb Bool.eqb].
    rewrite (bind_OK _ _ self (Some [icell p t], Some [szero]) self); [ done | ].
    by rewrite (bind_OK _ _ self p self (getattr_Some _ _ _ Hp)). }
  by rewrite E1, E2.
Qed.

(** C5. On a configured instance [initial_conditions()] returns a dict
    with exactly the keys c, en and ep: c has the length of the mesh array
    xc and every entry c0; en has the length of xcn and every entry
    U_Pb(c0); ep has the length of xcp and every entry U_PbO2(c0). *)
Theorem initial_conditions_spec `{!ScalarLaws F}
    (self : Electrolyte F) (p : Parameters F) (m : Mesh F) :
  param self = Some p ->
  mesh self = Some m ->
  exists ic : gmap string (list F),
    initial_conditions self = (OK ic, self) /\
    dom ic = {[ "c"; "en"; "ep" ]} /\
    (exists a, ic !! "c" = Some a /\ length a = length (xc m) /\
               Forall (fun x => x = c0 p) a) /\
    (exists a, ic !! "en" = Some a /\ length a = length (xcn m) /\
               Forall (fun x => x = U_Pb p (c0 p)) a) /\
    (exists a, ic !! "ep" = Some a /\ length a = length (xcp m) /\
               Forall (fun x => x = U_PbO2 p (c0 p)) a).
Proof.
  intros Hp Hm. eexists. split.
  { unfold initial_conditions.
    repeat first
      [ rewrite (bind_OK _ _ self p self (getattr_Some _ _ _ Hp))
      | rewrite (bind_OK _ _ self m self (getattr_Some _ _ _ Hm)) ].
    rewrite !scale_ones. reflexivity. }
  split.
  { rewrite !dom_insert_L, dom_empty_L. set_solver. }
  repeat split; eexists;
    (split; [ by simplify_map_eq | ]);
    (split; [ apply length_replicate | ]);
    apply Forall_forall; intros x Hx; by apply elem_of_replicate in Hx as [-> _].
Qed.
End Boundaries.

(** ** The MacInnes relation *)

Section MacInnes.
Context {F : Type} `{Scalar F}.
Implicit Types (self : Electrolyte F) (ops : gmap string (Operator F)).
Implicit Types (o : Operator F) (c e j gc ge : list F) (d : string).

(** What [macinnes] does once both gradients are there. *)
Lemma macinnes_run self ops o d c e gc ge lbc rbc :
  operators self = Some ops ->
  ops !! d = Some o ->
  grad o c = OK gc ->
  grad o e = OK ge ->
  macinnes d c e (lbc, rbc) self =
  (res_map (fun i_inner => lbc ++ i_inner ++ rbc)
     (np.add (np.scale sone gc) (np.scale sone ge)), self).
Proof.
  intros Hops Ho Hc He. unfold macinnes.
  rewrite (bind_OK _ _ self ops self (getattr_Some _ _ _ Hops)).
  rewrite (bind_OK _ _ self o self (getitem_Some _ _ _ _ Ho)).
  unfold lift at 1 2. rewrite Hc, He.
  rewrite (bind_OK _ _ self gc self eq_refl).
  rewrite (bind_OK _ _ self ge self eq_refl).
  unfold bind, lift.
  destruct (np.add _ _) as [i_inner|err]; cbn [res_map]; [ | done ].
  by rewrite concatenate_3.
Qed.

(** C3. For fields [c] and [e] of one length n on the domain, with a
    gradient of one value per interior face (n - 1 values), and boundary
    currents [l] and [r], [macinnes] returns the array of length n + 1
    that is [l], then 1 * grad(c) + 1 * grad(e) entry by entry, then [r];
    its first entry is [l] and its last entry is [r].  The statement does
    not depend on the domain being xcn or xcp. *)
Theorem macinnes_spec self ops o d c e gc ge (l r : F) :
  operators self = Some ops ->
  ops !! d = Some o ->
  length e = length c ->
  grad o c = OK gc ->
  grad o e = OK ge ->
  S (length gc) = length c ->
  S (length ge) = length e ->
  let i := [l] ++ zip_with sadd (np.scale sone gc) (np.scale sone ge) ++ [r] in
  macinnes d c e ([l], [r]) self = (OK i, self) /\
  length i = length c + 1 /\
  i !! 0 = Some l /\
  i !! length c = Some r /\
  (forall k x y, gc !! k = Some x -> ge !! k = Some y ->
     i !! S k = Some (sadd (smul sone x) (smul sone y))).
Proof.
  intros Hops Ho Hlen Hc He Lc Le i.
  assert (length (zip_with sadd (np.scale sone gc) (np.scale sone ge))
          = length gc) as Lz.
  { rewrite length_zip_with, !length_scale. lia. }
  split.
  { rewrite (macinnes_run self ops o d c e gc ge) by done.
    unfold np.add. rewrite broadcast_same; [ done | ].
    rewrite !length_scale. lia. }
  split.
  { subst i. rewrite !length_app, Lz. cbn. lia. }
  split; [ done | ].
  split.
  { subst i. rewrite <- Lc.
    rewrite (lookup_app_r [l]) by (cbn; lia).
    replace (S (length gc) - length [l]) with (length gc) by (cbn; lia).
    rewrite lookup_app_r by lia. by rewrite Lz, Nat.sub_diag. }
  intros k x y Hx Hy. subst i.
  rewrite (lookup_app_r [l]) by (cbn; lia).
  replace (S k - length [l]) with k by (cbn; lia).
  rewrite lookup_app_l by (rewrite Lz; by eapply lookup_lt_Some).
  rewrite lookup_zip_with. unfold np.scale.
  by rewrite !list_lookup_fmap, Hx, Hy.
Qed.

(** C10. [macinnes] gives the same result with the concentration and the
    potential exchanged, on fields whose gradients the operator computes:
    the same array, or the same [ValueError] when the two gradients do not
    broadcast. *)
Theorem macinnes_symmetric `{!ScalarLaws F}
    self ops o d c e gc ge (current_bcs : bcs) :
  operators self = Some ops ->
  ops !! d = Some o ->
  length c = length e ->
  grad o c = OK gc ->
  grad o e = OK ge ->
  macinnes d c e current_bcs self = macinnes d e c current_bcs self.
Proof.
  intros Hops Ho _ Hc He. destruct current_bcs as [lbc rbc].
  rewrite (macinnes_run self ops o d c e gc ge) by done.
  rewrite (macinnes_run self ops o d e c ge gc) by done.
  unfold np.add. by rewrite (broadcast_comm sadd _ _ sadd_comm).
Qed.
End MacInnes.

(** ** The conservation laws *)

Section Conservation.
Context {F : Type} `{Scalar F}.
Implicit Types (self : Electrolyte F) (ops : gmap string (Operator F)).
Implicit Types (p : Parameters F) (o : Operator F) (d : string).
Implicit Types (c e j g dv i lbc rbc : list F).

(** What [cation_conservation] does once the operators have answered. *)
Lemma cation_conservation_run self p ops o c j lbc rbc g dv :
  param self = Some p ->
  operators self = Some ops ->
  ops !! "xc" = Some o ->
  grad o c = OK g ->
  div o (lbc ++ np.negative g ++ rbc) = OK dv ->
  cation_conservation c j (lbc, rbc) self =
  (np.add (np.negative dv) (np.scale (s p) j), self).
Proof.
  intros Hp Hops Ho Hg Hd. unfold cation_conservation.
  rewrite (bind_OK _ _ self ops self (getattr_Some _ _ _ Hops)).
  rewrite (bind_OK _ _ self o self (getitem_Some _ _ _ _ Ho)).
  unfold lift at 1. rewrite Hg.
  rewrite (bind_OK _ _ self g self eq_refl).
  rewrite (bind_OK _ _ self ops self (getattr_Some _ _ _ Hops)).
  rewrite (bind_OK _ _ self o self (getitem_Some _ _ _ _ Ho)).
  unfold lift at 1. rewrite concatenate_3, Hd.
  rewrite (bind_OK _ _ self dv self eq_refl).
  rewrite (bind_OK _ _ self p self (getattr_Some _ _ _ Hp)).
  unfold bind, lift, ret. by destruct (np.add _ _).
Qed.

(** C1. For [c] and [j] of the mesh length n and boundary fluxes [lbc] and
    [rbc], with operators of domain xc that answer (the divergence with one
    value per cell), [cation_conservation] returns the field
    -div(concat(lbc, -grad(c), rbc)) + s * j, of length n. *)
Theorem cation_conservation_spec self p ops o c j lbc rbc g dv :
  param self = Some p ->
  operators self = Some ops ->
  ops !! "xc" = Some o ->
  length j = length c ->
  grad o c = OK g ->
  div o (lbc ++ np.negative g ++ rbc) = OK dv ->
  length dv = length c ->
  let dcdt := zip_with sadd (np.negative dv) (np.scale (s p) j) in
  cation_conservation c j (lbc, rbc) self = (OK dcdt, self) /\
  length dcdt = length c.
Proof.
  intros Hp Hops Ho Lj Hg Hd Ld dcdt. split.
  - rewrite (cation_conservation_run self p ops o c j lbc rbc g dv) by done.
    unfold np.add. rewrite broadcast_same; [ done | ].
    rewrite length_negative, length_scale. lia.
  - subst dcdt. rewrite length_zip_with, length_negative, length_scale. lia.
Qed.

(** C7, as the code has it.  [cation_conservation] compares no lengths
    itself.  Once the operators have answered, with a divergence of m
    values, the call raises [ValueError] when m and the length of [j]
    differ and neither is 1, and returns a field in every other case: an
    operand of length 1 is broadcast. *)
Theorem cation_conservation_shape_error self p ops o c j lbc rbc g dv :
  param self = Some p ->
  operators self = Some ops ->
  ops !! "xc" = Some o ->
  grad o c = OK g ->
  div o (lbc ++ np.negative g ++ rbc) = OK dv ->
  (length dv <> length j /\ length dv <> 1 /\ length j <> 1 ->
   cation_conservation c j (lbc, rbc) self = (Raise ValueError, self)) /\
  (length dv = length j \/ length dv = 1 \/ length j = 1 ->
   exists dcdt, cation_conservation c j (lbc, rbc) self = (OK dcdt, self)).
Proof.
  intros Hp Hops Ho Hg Hd.
  rewrite (cation_conservation_run self p ops o c j lbc rbc g dv) by done.
  unfold np.add. split.
  - intros C. rewrite (proj2 (broadcast_raises sadd _ _)); [ done | ].
    by rewrite length_negative, length_scale.
  - intros C. destruct (np.broadcast sadd _ _) as [dcdt|err] eqn:E; [ by eexists | ].
    assert (err = ValueError) as ->.
    { revert E. unfold np.broadcast. case_decide; [ done | ].
      repeat case_match; congruence. }
    apply broadcast_raises in E.
    rewrite length_negative, length_scale in E. lia.
Qed.

(** [current_conservation] on a domain of an electrode, up to the division:
    [macinnes] has returned [i] and the parameters are there. *)
Lemma current_conservation_division self p d c e j cbcs i :
  d = "xcn" \/ d = "xcp" ->
  param self = Some p ->
  fst (macinnes d c e cbcs self) = OK i ->
  let gamma_dl := if String.eqb d "xcn" then gamma_dl_n p else gamma_dl_p p in
  current_conservation d c e j cbcs self =
  match truediv sone gamma_dl with
  | OK k =>
      (let* ops := getattr operators in
       let* o := getitem ops d in
       let* dv := lift (div o i) in
       let* r := lift (np.subtract dv j) in
       ret (np.scale k r)) self
  | Raise err => (Raise err, self)
  end.
Proof.
  intros Hd Hp Hi gamma_dl. unfold current_conservation.
  assert (macinnes d c e cbcs self = (OK i, self)) as Hm.
  { rewrite (read_only_run _ self (macinnes_frame d c e cbcs)). by rewrite Hi. }
  rewrite (bind_OK _ _ self i self Hm).
  rewrite (bind_OK _ _ self (Some gamma_dl) self).
  2:{ subst gamma_dl. destruct Hd as [-> | ->]; cbn [String.eqb Ascii.eqb Bool.eqb];
        by rewrite (bind_OK _ _ self p self (getattr_Some _ _ _ Hp)). }
  rewrite (bind_OK _ _ self gamma_dl self eq_refl).
  unfold bind at 1, lift at 1. by destruct (truediv sone gamma_dl).
Qed.

(** The division by a number that is not zero. *)
Lemma truediv_OK (x y : F) : sis_zero y = false -> truediv x y = OK (sdiv x y).
Proof. intros E. unfold truediv. by rewrite E. Qed.

(** The division by zero. *)
Lemma truediv_zero (x y : F) :
  sis_zero y = true -> truediv x y = Raise ZeroDivisionError.
Proof. intros E. unfold truediv. by rewrite E. Qed.

(** What [current_conservation] does on a domain of an electrode, once
    [macinnes] and the divergence have answered, for a time constant that is
    not zero. *)
Lemma current_conservation_run self p ops o d c e j cbcs i dv :
  d = "xcn" \/ d = "xcp" ->
  param self = Some p ->
  operators self = Some ops ->
  ops !! d = Some o ->
  fst (macinnes d c e cbcs self) = OK i ->
  div o i = OK dv ->
  let gamma_dl := if String.eqb d "xcn" then gamma_dl_n p else gamma_dl_p p in
  sis_zero gamma_dl = false ->
  current_conservation d c e j cbcs self =
  (res_map (np.scale (sdiv sone gamma_dl)) (np.subtract dv j), self).
Proof.
  intros Hd Hp Hops Ho Hi Hdiv gamma_dl Hz.
  rewrite (current_conservation_division self p d c e j cbcs i) by done.
  fold gamma_dl. rewrite (truediv_OK _ _ Hz).
  rewrite (bind_OK _ _ self ops self (getattr_Some _ _ _ Hops)).
  rewrite (bind_OK _ _ self o self (getitem_Some _ _ _ _ Ho)).
  unfold lift at 1. rewrite Hdiv.
  rewrite (bind_OK _ _ self dv self eq_refl).
  unfold bind, lift, ret. by destruct (np.subtract _ _).
Qed.

(** C2. For a domain [d] of an electrode and fields on it,
    [current_conservation] returns (1 / gamma_dl) * (div(i) - j), where
    [i] is what [macinnes] returns for the same arguments, [div] the
    divergence of the domain (one value per cell, as many as [j] has) and
    [gamma_dl] is gamma_dl_n for xcn and gamma_dl_p for xcp, a number that
    is not zero: 1 / gamma_dl is a division of Python numbers, which raises
    on zero. *)
Theorem current_conservation_spec self p ops o d c e j cbcs i dv :
  d = "xcn" \/ d = "xcp" ->
  param self = Some p ->
  operators self = Some ops ->
  ops !! d = Some o ->
  fst (macinnes d c e cbcs self) = OK i ->
  div o i = OK dv ->
  length dv = length j ->
  let gamma_dl := if String.eqb d "xcn" then gamma_dl_n p else gamma_dl_p p in
  sis_zero gamma_dl = false ->
  current_conservation d c e j cbcs self =
  (OK (np.scale (sdiv sone gamma_dl) (zip_with ssub dv j)), self).
Proof.
  intros Hd Hp Hops Ho Hi Hdiv L gamma_dl Hz.
  rewrite (current_conservation_run self p ops o d c e j cbcs i dv) by done.
  unfold np.subtract. by rewrite broadcast_same.
Qed.
End Conservation.

(** ** Domains other than xcn and xcp *)

Section InvalidDomain.
Context {F : Type} `{Scalar F}.
Implicit Types (self : Electrolyte F) (ops : gmap string (Operator F)).
Implicit Types (o : Operator F) (c e j gc ge lbc rbc : list F) (d : string).

(** C4, as the code has it.  For a domain [d] other than xcn and xcp:
    [bcs_current] raises [UnboundLocalError], at its [return];
    [current_conservation] never returns a value: it raises the exception of
    [macinnes] when [macinnes] raises, and otherwise [UnboundLocalError]
    where [gamma_dl] is read, before the division and before [div] is
    called; [macinnes] does not validate [d]: it raises [AttributeError]
    when the operators are unassigned, [KeyError] when the operators have no
    entry for [d], and where they have one and both gradients are there
    with one length it returns the assembled array as for any other
    domain. *)
Theorem invalid_domain_behaviour d :
  d <> "xcn" ->
  d <> "xcp" ->
  (forall (t : F) self,
     bcs_current d t self = (Raise UnboundLocalError, self)) /\
  (forall c e j (cbcs : bcs) self,
     current_conservation d c e j cbcs self =
     (match fst (macinnes d c e cbcs self) with
      | OK _ => Raise UnboundLocalError
      | Raise err => Raise err
      end, self)) /\
  (forall c e (cbcs : bcs) self,
     operators self = None ->
     macinnes d c e cbcs self = (Raise AttributeError, self)) /\
  (forall c e (cbcs : bcs) self ops,
     operators self = Some ops -> ops !! d = None ->
     macinnes d c e cbcs self = (Raise KeyError, self)) /\
  (forall c e lbc rbc self ops o gc ge,
     operators self = Some ops -> ops !! d = Some o ->
     grad o c = OK gc -> grad o e = OK ge -> length gc = length ge ->
     macinnes d c e (lbc, rbc) self =
     (OK (lbc ++ zip_with sadd (np.scale sone gc) (np.scale sone ge) ++ rbc),
      self)).
Proof.
  intros Hn Hp.
  apply String.eqb_neq in Hn as En. apply String.eqb_neq in Hp as Ep.
  split_and!.
  - intros t self. unfold bcs_current. by rewrite En, Ep.
  - intros c e j cbcs self. unfold current_conservation.
    rewrite En, Ep.
    pose proof (read_only_run _ self (macinnes_frame d c e cbcs)) as Hm.
    destruct (fst (macinnes d c e cbcs self)) as [i|err].
    + by rewrite (bind_OK _ _ self i self Hm).
    + by rewrite (bind_Raise _ _ self err self Hm).
  - intros c e cbcs self Hops. unfold macinnes.
    by rewrite (bind_Raise _ _ self AttributeError self (getattr_None _ _ Hops)).
  - intros c e cbcs self ops Hops Ho. unfold macinnes.
    rewrite (bind_OK _ _ self ops self (getattr_Some _ _ _ Hops)).
    by rewrite (bind_Raise _ _ self KeyError self (getitem_None _ _ _ Ho)).
  - intros c e lbc rbc self ops o gc ge Hops Ho Hc He L.
    rewrite (macinnes_run self ops o d c e gc ge) by done.
    unfold np.add. rewrite broadcast_same; [ done | ].
    by rewrite !length_scale.
Qed.
End InvalidDomain.

(** ** The attributes *)

Section Attributes.
Context {F : Type} `{Scalar F}.

(** C9. None of the six evaluation methods changes the instance: whatever
    the arguments, and whether the call returns or raises, the parameter,
    operator and mesh attributes after the call are those before it.
    [set_simulation] is the one method that assigns them. *)
Theorem evaluation_frame :
  (forall self : Electrolyte F, snd (initial_conditions self) = self) /\
  (forall (c j : list F) (flux_bcs : bcs) self,
     snd (cation_conservation c j flux_bcs self) = self) /\
  (forall self : Electrolyte F, snd (bcs_cation_flux self) = self) /\
  (forall d (c e j : list F) (current_bcs : bcs) self,
     snd (current_conservation d c e j current_bcs self) = self) /\
  (forall d (c e : list F) (current_bcs : bcs) self,
     snd (macinnes d c e current_bcs self) = self) /\
  (forall d (t : F) self, snd (bcs_current d t self) = self) /\
  (forall (p : Parameters F) ops (m : Mesh F) self,
     snd (set_simulation p ops m self) =
     {| param := Some p; operators := Some ops; mesh := Some m |}).
Proof.
  repeat split; intros.
  - apply initial_conditions_frame.
  - apply cation_conservation_frame.
  - apply current_conservation_frame.
  - apply macinnes_frame.
  - apply bcs_current_frame.
Qed.
End Attributes.

(** * The statements on the rational configuration *)

Local Open Scope Q_scope.

(** Mesh of three cells, [c0 = 1], [s = 1/2]: a flat concentration and no
    reaction give a zero derivative. *)
Example steady_state :
  fst (cation_conservation [1; 1; 1] [0; 0; 0] ([0], [0]) demo)
  = OK [0 # 2; 0 # 2; 0 # 2].
Proof. reflexivity. Qed.

(** [icell(t) = 5]: the boundary currents of the two electrodes. *)
Example bcs_current_5 :
  fst (bcs_current "xcn" (7 # 3) demo) = OK ([0], [5]) /\
  fst (bcs_current "xcp" (7 # 3) demo) = OK ([5], [0]).
Proof. split; reflexivity. Qed.

(** Before [set_simulation] the attributes are missing. *)
Example unconfigured_raises :
  fst (initial_conditions unconfigured) = Raise AttributeError /\
  fst (macinnes "xcn" [1; 4] [2; 3] ([0], [5]) unconfigured) = Raise AttributeError.
Proof. split; reflexivity. Qed.

(** A double-layer constant of zero on the negative electrode: the division
    raises, while the positive electrode is served. *)
Example zero_gamma_dl :
  fst (current_conservation "xcn" [1; 4] [2; 3] [1; 1] ([0], [5]) demo_zero_gamma)
  = Raise ZeroDivisionError /\
  fst (current_conservation "xcp" [1; 4] [2; 3] [1; 1] ([5], [0]) demo_zero_gamma)
  = OK [-2 # 4; -5 # 4].
Proof. split; reflexivity. Qed.

Lemma cation_conservation_spec_witness :
  let dcdt :=
    zip_with Qplus (np.negative (np.diff ([0] ++ np.negative (np.diff [1; 4; 9]) ++ [0])))
      (np.scale (1 # 2) [2; 0; 1]) in
  cation_conservation [1; 4; 9] [2; 0; 1] ([0], [0]) demo = (OK dcdt, demo) /\
  length dcdt = 3%nat.
Proof.
  refine (cation_conservation_spec demo demo_param demo_operators unit_fv
           [1; 4; 9] [2; 0; 1] [0] [0] (np.diff [1; 4; 9])
           (np.diff ([0] ++ np.negative (np.diff [1; 4; 9]) ++ [0])) _ _ _ _ _ _ _);
    reflexivity.
Defined.

Lemma current_conservation_spec_witness :
  current_conservation "xcn" [1; 4] [2; 3] [1; 1] ([0], [5]) demo =
  (OK (np.scale (1 / 2) (zip_with Qminus (np.diff [0; 4; 5]) [1; 1])), demo).
Proof.
  refine (current_conservation_spec demo demo_param demo_operators unit_fv
           "xcn" [1; 4] [2; 3] [1; 1] ([0], [5]) [0; 4; 5] (np.diff [0; 4; 5])
           _ _ _ _ _ _ _ _);
    first [ by left | reflexivity ].
Defined.

Lemma macinnes_spec_witness :
  let i := [0] ++ zip_with Qplus (np.scale 1 [3]) (np.scale 1 [1]) ++ [5] in
  macinnes "xcn" [1; 4] [2; 3] ([0], [5]) demo = (OK i, demo) /\
  length i = (2 + 1)%nat /\
  i !! 0%nat = Some 0 /\
  i !! 2%nat = Some 5 /\
  (forall k x y, [3] !! k = Some x -> [1] !! k = Some y ->
     i !! S k = Some (Qplus (Qmult 1 x) (Qmult 1 y))).
Proof.
  refine (macinnes_spec demo demo_operators unit_fv "xcn" [1; 4] [2; 3] [3] [1] 0 5
            _ _ _ _ _ _ _);
    reflexivity.
Defined.

Lemma macinnes_symmetric_witness :
  macinnes "xcp" [1; 4] [2; 3] ([5], [0]) demo =
  macinnes "xcp" [2; 3] [1; 4] ([5], [0]) demo.
Proof.
  refine (macinnes_symmetric (ScalarLaws0 := Q_scalar_laws)
           demo demo_operators unit_fv "xcp" [1; 4] [2; 3] [3] [1]
            ([5], [0]) _ _ _ _ _);
    reflexivity.
Defined.

Lemma bcs_current_spec_witness :
  bcs_current "xcn" (7 # 3) demo = (OK ([0], [5]), demo) /\
  bcs_current "xcp" (7 # 3) demo = (OK ([5], [0]), demo) /\
  fst (bcs_current "xcp" (7 # 3) demo) =
    res_map prod_swap (fst (bcs_current "xcn" (7 # 3) demo)).
Proof. refine (bcs_current_spec demo demo_param (7 # 3) _). reflexivity. Defined.

Lemma initial_conditions_spec_witness :
  exists ic : gmap string (list Q),
    initial_conditions demo = (OK ic, demo) /\
    dom ic = {[ "c"; "en"; "ep" ]} /\
    (exists a, ic !! "c" = Some a /\ length a = 3%nat /\ Forall (fun x => x = 1) a) /\
    (exists a, ic !! "en" = Some a /\ length a = 2%nat /\
               Forall (fun x => x = Qplus 1 1) a) /\
    (exists a, ic !! "ep" = Some a /\ length a = 2%nat /\
               Forall (fun x => x = Qmult 3 1) a).
Proof.
  refine (initial_conditions_spec (ScalarLaws0 := Q_scalar_laws)
           demo demo_param demo_mesh _ _); reflexivity.
Defined.

(** C7, the claim as stated fails: [j] of length 1 against [c] of the mesh
    length 3 is broadcast, and the call returns a field. *)
Lemma cation_conservation_broadcasts_j :
  length [2] <> length [1; 4; 9] /\
  length [1; 4; 9] = length (xc demo_mesh) /\
  cation_conservation [1; 4; 9] [2] ([0], [0]) demo
  = (OK [8 # 2; 6 # 2; -8 # 2], demo).
Proof. repeat split. cbn. lia. Qed.

Lemma cation_conservation_shape_error_witness :
  (length (np.diff ([0] ++ np.negative (np.diff [1; 4; 9]) ++ [0])) <> length [2; 3] /\
   length (np.diff ([0] ++ np.negative (np.diff [1; 4; 9]) ++ [0])) <> 1%nat /\
   length [2; 3] <> 1%nat ->
   cation_conservation [1; 4; 9] [2; 3] ([0], [0]) demo = (Raise ValueError, demo)) /\
  (length (np.diff ([0] ++ np.negative (np.diff [1; 4; 9]) ++ [0])) = length [2; 3] \/
   length (np.diff ([0] ++ np.negative (np.diff [1; 4; 9]) ++ [0])) = 1%nat \/
   length [2; 3] = 1%nat ->
   exists dcdt,
     cation_conservation [1; 4; 9] [2; 3] ([0], [0]) demo = (OK dcdt, demo)).
Proof.
  refine (cation_conservation_shape_error demo demo_param demo_operators unit_fv
           [1; 4; 9] [2; 3] [0] [0] (np.diff [1; 4; 9])
           (np.diff ([0] ++ np.negative (np.diff [1; 4; 9]) ++ [0])) _ _ _ _ _);
    reflexivity.
Defined.

(** C4, the claim as stated fails: xc is neither xcn nor xcp, the operators
    have an entry for it, and [macinnes] returns. *)
Lemma macinnes_xc_returns :
  "xc" <> "xcn" /\ "xc" <> "xcp" /\
  macinnes "xc" [1; 4; 9] [2; 3; 7] ([0], [5]) demo = (OK [0; 4; 9; 5], demo).
Proof. repeat split; discriminate. Qed.

Lemma invalid_domain_behaviour_witness :
  (forall (t : Q) self, bcs_current "xc" t self = (Raise UnboundLocalError, self)) /\
  (forall c e j (cbcs : bcs) self,
     current_conservation "xc" c e j cbcs self =
     (match fst (macinnes "xc" c e cbcs self) with
      | OK _ => Raise UnboundLocalError
      | Raise err => Raise err
      end, self)) /\
  (forall c e (cbcs : bcs) self,
     operators self = None ->
     macinnes "xc" c e cbcs self = (Raise AttributeError, self)) /\
  (forall c e (cbcs : bcs) self ops,
     operators self = Some ops -> ops !! "xc" = None ->
     macinnes "xc" c e cbcs self = (Raise KeyError, self)) /\
  (forall c e lbc rbc self ops o gc ge,
     operators self = Some ops -> ops !! "xc" = Some o ->
     grad o c = OK gc -> grad o e = OK ge -> length gc = length ge ->
     macinnes "xc" c e (lbc, rbc) self =
     (OK (lbc ++ zip_with Qplus (np.scale 1 gc) (np.scale 1 ge) ++ rbc), self)).
Proof. refine (invalid_domain_behaviour (F := Q) "xc" _ _); discriminate. Defined.

(** * Further properties of the methods *)

Local Close Scope Q_scope.

(** ** Reading the attributes *)

Section Footprint.
Context {F : Type}.
Implicit Types (R : Electrolyte F -> Electrolyte F -> Prop).

Lemma same_on_ret {A} R (a : A) : same_on R (ret a).
Proof. by intros self1 self2 _. Qed.

Lemma same_on_raise {A} R (e : exn) : same_on (A := A) R (raise e).
Proof. by intros self1 self2 _. Qed.

Lemma same_on_lift {A} R (r : res A) : same_on R (lift r).
Proof. by intros self1 self2 _. Qed.

Lemma same_on_local {A} R (v : option A) : same_on R (local v).
Proof. intros self1 self2 _. by destruct v. Qed.

Lemma same_on_getitem R (ops : gmap string (Operator F)) d :
  same_on R (getitem ops d).
Proof. intros self1 self2 _. unfold getitem. by destruct (ops !! d). Qed.

(** Reading an attribute on which the two instances agree. *)
Lemma same_on_getattr {A} R (a : Electrolyte F -> option A) :
  (forall self1 self2, R self1 self2 -> a self1 = a self2) ->
  same_on R (getattr a).
Proof.
  intros Ha self1 self2 HR. unfold getattr. rewrite (Ha _ _ HR).
  by destruct (a self2).
Qed.

Lemma same_on_bind {A B} R (m : M F A) (k : A -> M F B) :
  read_only m -> same_on R m -> (forall a, same_on R (k a)) ->
  same_on R (bind m k).
Proof.
  intros Rm Sm Sk self1 self2 HR. unfold bind.
  rewrite (read_only_run m self1 Rm), (read_only_run m self2 Rm).
  rewrite (Sm _ _ HR). destruct (fst (m self2)) as [a|e]; [ | done ].
  by apply Sk.
Qed.
End Footprint.

(** Walks through a method body as [frame] does, comparing two instances. *)
Ltac footprint :=
  repeat first
    [ apply same_on_bind; [ frame | | intros ? ]
    | match goal with
      | |- same_on _ (if ?b then _ else _) => destruct b
      | |- same_on _ (let '(_, _) := ?x in _) => destruct x
      end
    | apply same_on_ret | apply same_on_raise | apply same_on_lift
    | apply same_on_local | apply same_on_getitem
    | apply same_on_getattr; intros ? ? ?; tauto ].

Section Reads.
Context {F : Type} `{Scalar F}.
Implicit Types (self : Electrolyte F).

(** [initial_conditions] on an instance that has parameters and mesh. *)
Lemma initial_conditions_run self (p : Parameters F) (m : Mesh F) :
  param self = Some p ->
  mesh self = Some m ->
  initial_conditions self =
  (OK (<["ep" := np.scale (U_PbO2 p (c0 p)) (np.ones_like (xcp m))]>
         (<["en" := np.scale (U_Pb p (c0 p)) (np.ones_like (xcn m))]>
            (<["c" := np.scale (c0 p) (np.ones_like (xc m))]> ∅))), self).
Proof.
  intros Hp Hm. unfold initial_conditions.
  repeat first
    [ rewrite (bind_OK _ _ self p self (getattr_Some _ _ _ Hp))
    | rewrite (bind_OK _ _ self m self (getattr_Some _ _ _ Hm)) ].
  reflexivity.
Qed.

(** [initial_conditions] on an instance that misses one of the two. *)
Lemma initial_conditions_missing self :
  param self = None \/ mesh self = None ->
  initial_conditions self = (Raise AttributeError, self).
Proof.
  intros Hmiss. unfold initial_conditions.
  destruct (param self) as [p|] eqn:Hp.
  - destruct Hmiss as [?|Hm]; [ done | ].
    rewrite (bind_OK _ _ self p self (getattr_Some _ _ _ Hp)).
    by rewrite (bind_Raise _ _ self AttributeError self (getattr_None _ _ Hm)).
  - by rewrite (bind_Raise _ _ self AttributeError self (getattr_None _ _ Hp)).
Qed.

(** X1. [initial_conditions] raises [AttributeError] exactly when the
    parameters or the mesh were never assigned, and returns a dict in every
    other case; the operators are not needed. *)
Theorem initial_conditions_attributes self :
  (fst (initial_conditions self) = Raise AttributeError <->
   param self = None \/ mesh self = None) /\
  (is_Some (param self) /\ is_Some (mesh self) <->
   exists ic, fst (initial_conditions self) = OK ic).
Proof.
  assert (forall r : res (gmap string (list F)), r = Raise AttributeError ->
            ~ exists ic, r = OK ic) as Hno.
  { intros r -> [ic ?]. discriminate. }
  destruct (param self) as [p|] eqn:Hp, (mesh self) as [m|] eqn:Hm.
  - rewrite (initial_conditions_run self p m Hp Hm). cbn. split.
    + split; [ discriminate | intros [?|?]; discriminate ].
    + split; [ intros _; by eexists | intros _; split; by eexists ].
  - rewrite (initial_conditions_missing self) by (by right). cbn. split.
    + split; [ intros _; by right | done ].
    + split; [ intros [_ [? ?]]; discriminate | intros E; by apply Hno in E ].
  - rewrite (initial_conditions_missing self) by (by left). cbn. split.
    + split; [ intros _; by left | done ].
    + split; [ intros [[? ?] _]; discriminate | intros E; by apply Hno in E ].
  - rewrite (initial_conditions_missing self) by (by left). cbn. split.
    + split; [ intros _; by left | done ].
    + split; [ intros [[? ?] _]; discriminate | intros E; by apply Hno in E ].
Qed.

(** X2. What each method reads.  On two instances that agree on the
    attributes named, a call gives the same result, value or exception:
    [initial_conditions] reads the parameters and the mesh;
    [cation_conservation] and [current_conservation] the operators and the
    parameters, never the mesh; [macinnes] the operators alone;
    [bcs_current] the parameters alone; [bcs_cation_flux] nothing. *)
Theorem read_footprint :
  same_on (fun self1 self2 : Electrolyte F =>
             param self1 = param self2 /\ mesh self1 = mesh self2)
    initial_conditions /\
  (forall c j flux_bcs,
     same_on (fun self1 self2 : Electrolyte F =>
                operators self1 = operators self2 /\ param self1 = param self2)
       (cation_conservation c j flux_bcs)) /\
  (forall d c e j current_bcs,
     same_on (fun self1 self2 : Electrolyte F =>
                operators self1 = operators self2 /\ param self1 = param self2)
       (current_conservation d c e j current_bcs)) /\
  (forall d c e current_bcs,
     same_on (fun self1 self2 : Electrolyte F => operators self1 = operators self2)
       (macinnes d c e current_bcs)) /\
  (forall d t,
     same_on (fun self1 self2 : Electrolyte F => param self1 = param self2)
       (bcs_current d t)) /\
  same_on (fun _ _ : Electrolyte F => True) bcs_cation_flux.
Proof.
  assert (forall d c e current_bcs,
     same_on (fun self1 self2 : Electrolyte F => operators self1 = operators self2)
       (macinnes d c e current_bcs)) as Hmac.
  { intros. unfold macinnes. footprint. }
  split_and!; intros.
  - unfold initial_conditions. footprint.
  - unfold cation_conservation. footprint.
  - unfold current_conservation.
    apply same_on_bind; [ apply macinnes_frame | | intros i ].
    + intros self1 self2 [Ho _]. by apply Hmac.
    + footprint.
  - apply Hmac.
  - unfold bcs_current. footprint.
  - unfold bcs_cation_flux. footprint.
Qed.

(** X3. The initial conditions depend on the mesh through the lengths of
    its three arrays only: with the same parameters, two meshes of the same
    lengths give the same dict, whatever the cell centres are. *)
Theorem initial_conditions_mesh_lengths self1 self2 (m1 m2 : Mesh F) :
  param self1 = param self2 ->
  mesh self1 = Some m1 ->
  mesh self2 = Some m2 ->
  length (xc m1) = length (xc m2) ->
  length (xcn m1) = length (xcn m2) ->
  length (xcp m1) = length (xcp m2) ->
  fst (initial_conditions self1) = fst (initial_conditions self2).
Proof.
  intros Hp H1 H2 Lc Ln Lp.
  assert (forall a b : list F, length a = length b ->
            np.ones_like a = np.ones_like b) as Hones.
  { unfold np.ones_like. induction a as [|x a IH]; intros [|y b] L; cbn in *;
      try done. f_equal. apply IH. lia. }
  destruct (param self2) as [p|] eqn:Hp2.
  - rewrite (initial_conditions_run self1 p m1 Hp H1).
    rewrite (initial_conditions_run self2 p m2 Hp2 H2). cbn.
    by rewrite (Hones _ _ Lc), (Hones _ _ Ln), (Hones _ _ Lp).
  - rewrite (initial_conditions_missing self1) by (by left).
    by rewrite (initial_conditions_missing self2) by (by left).
Qed.
End Reads.

(** ** Exceptions of the operators and of the lookups *)

Section Exceptions.
Context {F : Type} `{Scalar F}.
Implicit Types (self : Electrolyte F) (ops : gmap string (Operator F)).
Implicit Types (p : Parameters F) (o : Operator F) (d : string) (err : exn).
Implicit Types (c e j g gc ge dv i lbc rbc : list F).

(** The length of what a ufunc returns. *)
Lemma broadcast_length (op : F -> F -> F) (a b r : list F) :
  np.broadcast op a b = OK r ->
  length r = if decide (length a = 1) then length b else length a.
Proof.
  unfold np.broadcast. destruct (decide (length a = length b)) as [E|E].
  - intros [= <-]. rewrite length_zip_with. case_decide; lia.
  - destruct a as [|x [|x' a]], b as [|y [|y' b]]; cbv beta iota;
      try discriminate; intros [= <-]; case_decide;
      cbn [length] in *; rewrite ?length_map; cbn [length]; lia.
Qed.

(** A ufunc raises nothing but [ValueError]. *)
Lemma broadcast_Raise (op : F -> F -> F) (a b : list F) err :
  np.broadcast op a b = Raise err -> err = ValueError.
Proof.
  unfold np.broadcast. case_decide; [ done | ]. repeat case_match; congruence.
Qed.

(** X4. The exceptions of [cation_conservation], in the order the body
    meets them: [AttributeError] without operators, [KeyError] when the
    operators have no entry xc, the exception of [grad], then the exception
    of [div], each passed on as it is; missing parameters are noticed last,
    after both operators have answered. *)
Theorem cation_conservation_raises self c j lbc rbc :
  (operators self = None ->
   cation_conservation c j (lbc, rbc) self = (Raise AttributeError, self)) /\
  (forall ops, operators self = Some ops -> ops !! "xc" = None ->
   cation_conservation c j (lbc, rbc) self = (Raise KeyError, self)) /\
  (forall ops o err, operators self = Some ops -> ops !! "xc" = Some o ->
   grad o c = Raise err ->
   cation_conservation c j (lbc, rbc) self = (Raise err, self)) /\
  (forall ops o g err, operators self = Some ops -> ops !! "xc" = Some o ->
   grad o c = OK g ->
   div o (lbc ++ np.negative g ++ rbc) = Raise err ->
   cation_conservation c j (lbc, rbc) self = (Raise err, self)) /\
  (forall ops o g dv, operators self = Some ops -> ops !! "xc" = Some o ->
   grad o c = OK g ->
   div o (lbc ++ np.negative g ++ rbc) = OK dv ->
   param self = None ->
   cation_conservation c j (lbc, rbc) self = (Raise AttributeError, self)).
Proof.
  unfold cation_conservation. split_and!.
  - intros Hops.
    by rewrite (bind_Raise _ _ self AttributeError self (getattr_None _ _ Hops)).
  - intros ops Hops Ho.
    rewrite (bind_OK _ _ self ops self (getattr_Some _ _ _ Hops)).
    by rewrite (bind_Raise _ _ self KeyError self (getitem_None _ _ _ Ho)).
  - intros ops o err Hops Ho Hg.
    rewrite (bind_OK _ _ self ops self (getattr_Some _ _ _ Hops)).
    rewrite (bind_OK _ _ self o self (getitem_Some _ _ _ _ Ho)).
    unfold lift at 1. rewrite Hg.
    by rewrite (bind_Raise _ _ self err self eq_refl).
  - intros ops o g err Hops Ho Hg Hd.
    rewrite (bind_OK _ _ self ops self (getattr_Some _ _ _ Hops)).
    rewrite (bind_OK _ _ self o self (getitem_Some _ _ _ _ Ho)).
    unfold lift at 1. rewrite Hg.
    rewrite (bind_OK _ _ self g self eq_refl).
    rewrite (bind_OK _ _ self ops self (getattr_Some _ _ _ Hops)).
    rewrite (bind_OK _ _ self o self (getitem_Some _ _ _ _ Ho)).
    unfold lift at 1. rewrite concatenate_3, Hd.
    by rewrite (bind_Raise _ _ self err self eq_refl).
  - intros ops o g dv Hops Ho Hg Hd Hp.
    rewrite (bind_OK _ _ self ops self (getattr_Some _ _ _ Hops)).
    rewrite (bind_OK _ _ self o self (getitem_Some _ _ _ _ Ho)).
    unfold lift at 1. rewrite Hg.
    rewrite (bind_OK _ _ self g self eq_refl).
    rewrite (bind_OK _ _ self ops self (getattr_Some _ _ _ Hops)).
    rewrite (bind_OK _ _ self o self (getitem_Some _ _ _ _ Ho)).
    unfold lift at 1. rewrite concatenate_3, Hd.
    rewrite (bind_OK _ _ self dv self eq_refl).
    by rewrite (bind_Raise _ _ self AttributeError self (getattr_None _ _ Hp)).
Qed.

(** X5. The exceptions of [macinnes] before the addition:
    [AttributeError] without operators, [KeyError] when the operators have
    no entry for the domain, the exception of [grad] on the concentration
    whatever [grad] does on the potential, and then the exception of [grad]
    on the potential. *)
Theorem macinnes_raises self d c e (current_bcs : bcs) :
  (operators self = None ->
   macinnes d c e current_bcs self = (Raise AttributeError, self)) /\
  (forall ops, operators self = Some ops -> ops !! d = None ->
   macinnes d c e current_bcs self = (Raise KeyError, self)) /\
  (forall ops o err, operators self = Some ops -> ops !! d = Some o ->
   grad o c = Raise err ->
   macinnes d c e current_bcs self = (Raise err, self)) /\
  (forall ops o gc err, operators self = Some ops -> ops !! d = Some o ->
   grad o c = OK gc ->
   grad o e = Raise err ->
   macinnes d c e current_bcs self = (Raise err, self)).
Proof.
  unfold macinnes. split_and!.
  - intros Hops.
    by rewrite (bind_Raise _ _ self AttributeError self (getattr_None _ _ Hops)).
  - intros ops Hops Ho.
    rewrite (bind_OK _ _ self ops self (getattr_Some _ _ _ Hops)).
    by rewrite (bind_Raise _ _ self KeyError self (getitem_None _ _ _ Ho)).
  - intros ops o err Hops Ho Hc.
    rewrite (bind_OK _ _ self ops self (getattr_Some _ _ _ Hops)).
    rewrite (bind_OK _ _ self o self (getitem_Some _ _ _ _ Ho)).
    unfold lift at 1. rewrite Hc.
    by rewrite (bind_Raise _ _ self err self eq_refl).
  - intros ops o gc err Hops Ho Hc He.
    rewrite (bind_OK _ _ self ops self (getattr_Some _ _ _ Hops)).
    rewrite (bind_OK _ _ self o self (getitem_Some _ _ _ _ Ho)).
    unfold lift at 1 2. rewrite Hc, He.
    rewrite (bind_OK _ _ self gc self eq_refl).
    by rewrite (bind_Raise _ _ self err self eq_refl).
Qed.

(** X6. The shapes [macinnes] accepts.  With both gradients there, the call
    raises [ValueError] exactly when their lengths differ and neither is 1;
    in every other case it returns an array, a gradient of length 1 being
    broadcast over the other, and the array has the length of the left
    boundary array, plus that of the broadcast gradients, plus that of the
    right boundary array.  Neither the lengths of [c] and [e] nor those of
    the boundary arrays are compared with anything. *)
Theorem macinnes_shapes self ops o d c e gc ge lbc rbc :
  operators self = Some ops ->
  ops !! d = Some o ->
  grad o c = OK gc ->
  grad o e = OK ge ->
  (macinnes d c e (lbc, rbc) self = (Raise ValueError, self) <->
   length gc <> length ge /\ length gc <> 1 /\ length ge <> 1) /\
  (length gc = length ge \/ length gc = 1 \/ length ge = 1 ->
   exists i, macinnes d c e (lbc, rbc) self = (OK i, self)) /\
  (forall i, macinnes d c e (lbc, rbc) self = (OK i, self) ->
   length i =
   length lbc + (if decide (length gc = 1) then length ge else length gc)
   + length rbc).
Proof.
  intros Hops Ho Hc He.
  rewrite (macinnes_run self ops o d c e gc ge) by done.
  unfold np.add.
  pose proof (broadcast_raises sadd (np.scale sone gc) (np.scale sone ge)) as R.
  rewrite !length_scale in R.
  destruct (np.broadcast sadd _ _) as [inner|err] eqn:E; cbn [res_map].
  - split_and!.
    + split; [ discriminate | ]. intros C. apply R in C. discriminate.
    + intros _. by eexists.
    + intros i [= <-]. apply broadcast_length in E.
      rewrite !length_scale in E. rewrite !length_app, E. lia.
  - apply broadcast_Raise in E as ->. split_and!.
    + split; [ intros _; by apply R | done ].
    + intros C. assert (length gc <> length ge /\ length gc <> 1 /\ length ge <> 1)
        as C' by by apply R. lia.
    + intros i [=].
Qed.
End Exceptions.

(** ** The charge law, and the laws with the boundary conditions of the class *)

Section Composition.
Context {F : Type} `{Scalar F}.
Implicit Types (self : Electrolyte F) (ops : gmap string (Operator F)).
Implicit Types (p : Parameters F) (o : Operator F) (d : string) (err : exn).
Implicit Types (c e j g gc ge dv i lbc rbc : list F).

(** [bcs_current] on the domain of an electrode. *)
Lemma bcs_current_run self p d (t : F) :
  d = "xcn" \/ d = "xcp" ->
  param self = Some p ->
  bcs_current d t self =
  (OK (if String.eqb d "xcn" then ([szero], [icell p t])
       else ([icell p t], [szero])), self).
Proof.
  intros Hd Hp. unfold bcs_current.
  destruct Hd as [-> | ->]; cbn [String.eqb Ascii.eqb Bool.eqb].
  - rewrite (bind_OK _ _ self (Some [szero], Some [icell p t]) self); [ done | ].
    by rewrite (bind_OK _ _ self p self (getattr_Some _ _ _ Hp)).
  - rewrite (bind_OK _ _ self (Some [icell p t], Some [szero]) self); [ done | ].
    by rewrite (bind_OK _ _ self p self (getattr_Some _ _ _ Hp)).
Qed.

(** X7. [current_conservation] written out.  On the domain of an electrode,
    with a time constant gamma_dl that is not zero (gamma_dl_n for xcn,
    gamma_dl_p for xcp), gradients of one length and a divergence that has
    as many values as [j], the call returns
    (1 / gamma_dl) * (div(concat(lbc, 1 * grad(c) + 1 * grad(e), rbc)) - j). *)
Theorem current_conservation_closed_form self p ops o d c e j lbc rbc gc ge dv :
  d = "xcn" \/ d = "xcp" ->
  param self = Some p ->
  operators self = Some ops ->
  ops !! d = Some o ->
  grad o c = OK gc ->
  grad o e = OK ge ->
  length gc = length ge ->
  div o (lbc ++ zip_with sadd (np.scale sone gc) (np.scale sone ge) ++ rbc)
    = OK dv ->
  length dv = length j ->
  let gamma_dl := if String.eqb d "xcn" then gamma_dl_n p else gamma_dl_p p in
  sis_zero gamma_dl = false ->
  current_conservation d c e j (lbc, rbc) self =
  (OK (np.scale (sdiv sone gamma_dl) (zip_with ssub dv j)), self).
Proof.
  intros Hd Hp Hops Ho Hc He L Hdiv Lj gamma_dl Hz.
  rewrite (current_conservation_run self p ops o d c e j (lbc, rbc)
             (lbc ++ zip_with sadd (np.scale sone gc) (np.scale sone ge) ++ rbc)
             dv); try done.
  - unfold np.subtract. by rewrite broadcast_same.
  - rewrite (macinnes_run self ops o d c e gc ge) by done.
    unfold np.add. rewrite broadcast_same; [ done | ].
    by rewrite !length_scale.
Qed.

(** X8. The exceptions of [current_conservation] on the domain of an
    electrode, in the order the body meets them: the exception of
    [macinnes], passed on as it is; [AttributeError] when the parameters are
    missing, noticed only after [macinnes] has returned;
    [ZeroDivisionError] when gamma_dl is zero, before [div] is called; the
    exception of [div]; and [ValueError] from the subtraction exactly when
    the divergence and [j] differ in length and neither has length 1. *)
Theorem current_conservation_raises self d c e j (current_bcs : bcs) :
  d = "xcn" \/ d = "xcp" ->
  (forall err, fst (macinnes d c e current_bcs self) = Raise err ->
   current_conservation d c e j current_bcs self = (Raise err, self)) /\
  (forall i, fst (macinnes d c e current_bcs self) = OK i ->
   param self = None ->
   current_conservation d c e j current_bcs self = (Raise AttributeError, self)) /\
  (forall i p, fst (macinnes d c e current_bcs self) = OK i ->
   param self = Some p ->
   sis_zero (if String.eqb d "xcn" then gamma_dl_n p else gamma_dl_p p) = true ->
   current_conservation d c e j current_bcs self
   = (Raise ZeroDivisionError, self)) /\
  (forall i p ops o err, fst (macinnes d c e current_bcs self) = OK i ->
   param self = Some p -> operators self = Some ops -> ops !! d = Some o ->
   sis_zero (if String.eqb d "xcn" then gamma_dl_n p else gamma_dl_p p) = false ->
   div o i = Raise err ->
   current_conservation d c e j current_bcs self = (Raise err, self)) /\
  (forall i p ops o dv, fst (macinnes d c e current_bcs self) = OK i ->
   param self = Some p -> operators self = Some ops -> ops !! d = Some o ->
   sis_zero (if String.eqb d "xcn" then gamma_dl_n p else gamma_dl_p p) = false ->
   div o i = OK dv ->
   (current_conservation d c e j current_bcs self = (Raise ValueError, self) <->
    length dv <> length j /\ length dv <> 1 /\ length j <> 1)).
Proof.
  intros Hd.
  pose proof (read_only_run _ self (macinnes_frame d c e current_bcs)) as Hm.
  split_and!.
  - intros err Hi. rewrite Hi in Hm. unfold current_conservation.
    by rewrite (bind_Raise _ _ self err self Hm).
  - intros i Hi Hp. rewrite Hi in Hm. unfold current_conservation.
    rewrite (bind_OK _ _ self i self Hm).
    rewrite (bind_Raise _ _ self AttributeError self); [ done | ].
    destruct Hd as [-> | ->]; cbn [String.eqb Ascii.eqb Bool.eqb];
      by rewrite (bind_Raise _ _ self AttributeError self (getattr_None _ _ Hp)).
  - intros i p Hi Hp Hz.
    rewrite (current_conservation_division self p d c e j current_bcs i) by done.
    by rewrite (truediv_zero _ _ Hz).
  - intros i p ops o err Hi Hp Hops Ho Hz Hdiv.
    rewrite (current_conservation_division self p d c e j current_bcs i) by done.
    rewrite (truediv_OK _ _ Hz).
    rewrite (bind_OK _ _ self ops self (getattr_Some _ _ _ Hops)).
    rewrite (bind_OK _ _ self o self (getitem_Some _ _ _ _ Ho)).
    unfold lift at 1. rewrite Hdiv.
    by rewrite (bind_Raise _ _ self err self eq_refl).
  - intros i p ops o dv Hi Hp Hops Ho Hz Hdiv.
    rewrite (current_conservation_run self p ops o d c e j current_bcs i dv)
      by done.
    unfold np.subtract. rewrite <- (broadcast_raises ssub dv j).
    destruct (np.broadcast ssub dv j) as [r|err]; cbn [res_map];
      split; congruence.
Qed.

(** X9. The laws see the fields through the gradient only: two
    concentrations with the same gradient on xc give the same result of
    [cation_conservation], and two pairs of concentration and potential
    with the same gradients on the domain give the same result of
    [macinnes] and of [current_conservation], values and exceptions
    alike. *)
Theorem gradients_only self ops :
  operators self = Some ops ->
  (forall c1 c2 j (flux_bcs : bcs),
     (forall o, ops !! "xc" = Some o -> grad o c1 = grad o c2) ->
     cation_conservation c1 j flux_bcs self
     = cation_conservation c2 j flux_bcs self) /\
  (forall d c1 c2 e1 e2 (current_bcs : bcs),
     (forall o, ops !! d = Some o ->
                grad o c1 = grad o c2 /\ grad o e1 = grad o e2) ->
     macinnes d c1 e1 current_bcs self = macinnes d c2 e2 current_bcs self /\
     forall j, current_conservation d c1 e1 j current_bcs self
               = current_conservation d c2 e2 j current_bcs self).
Proof.
  intros Hops. split.
  - intros c1 c2 j flux_bcs Hg. unfold cation_conservation.
    rewrite !(bind_OK _ _ self ops self (getattr_Some _ _ _ Hops)).
    destruct (ops !! "xc") as [o|] eqn:Ho.
    + rewrite !(bind_OK _ _ self o self (getitem_Some _ _ _ _ Ho)).
      unfold lift at 1 4. by rewrite (Hg o).
    + by rewrite !(bind_Raise _ _ self KeyError self (getitem_None _ _ _ Ho)).
  - intros d c1 c2 e1 e2 current_bcs Hg.
    assert (macinnes d c1 e1 current_bcs self = macinnes d c2 e2 current_bcs self)
      as Hm.
    { unfold macinnes.
      rewrite !(bind_OK _ _ self ops self (getattr_Some _ _ _ Hops)).
      destruct (ops !! d) as [o|] eqn:Ho.
      + rewrite !(bind_OK _ _ self o self (getitem_Some _ _ _ _ Ho)).
        destruct (Hg o eq_refl) as [Hc He]. by rewrite Hc, He.
      + by rewrite !(bind_Raise _ _ self KeyError self (getitem_None _ _ _ Ho)). }
    split; [ done | ]. intros j. unfold current_conservation.
    by apply bind_same.
Qed.

(** X10. [cation_conservation] on the boundary fluxes that the class itself
    supplies: the result is -div(concat([0], -grad(c), [0])) + s * j, a
    closed cell with no flux through either outer face. *)
Theorem cation_conservation_no_flux self p ops o c j g dv :
  param self = Some p ->
  operators self = Some ops ->
  ops !! "xc" = Some o ->
  grad o c = OK g ->
  div o ([szero] ++ np.negative g ++ [szero]) = OK dv ->
  length dv = length j ->
  (let* flux_bcs := bcs_cation_flux in cation_conservation c j flux_bcs) self =
  (OK (zip_with sadd (np.negative dv) (np.scale (s p) j)), self).
Proof.
  intros Hp Hops Ho Hg Hd L.
  rewrite (bind_OK bcs_cation_flux _ self ([szero], [szero]) self eq_refl).
  rewrite (cation_conservation_run self p ops o c j [szero] [szero] g dv) by done.
  unfold np.add. rewrite broadcast_same; [ done | ].
  by rewrite length_negative, length_scale.
Qed.

(** X11. [current_conservation] on the boundary currents that the class
    itself supplies for the same domain and a time [t], for a time constant
    gamma_dl that is not zero: the current density whose divergence is taken
    is concat([0], inner, [icell(t)]) on xcn and
    concat([icell(t)], inner, [0]) on xcp, where inner is
    1 * grad(c) + 1 * grad(e). *)
Theorem current_conservation_applied_current self p ops o d c e j (t : F) gc ge dv :
  d = "xcn" \/ d = "xcp" ->
  param self = Some p ->
  operators self = Some ops ->
  ops !! d = Some o ->
  grad o c = OK gc ->
  grad o e = OK ge ->
  length gc = length ge ->
  let inner := zip_with sadd (np.scale sone gc) (np.scale sone ge) in
  let i := if String.eqb d "xcn" then [szero] ++ inner ++ [icell p t]
           else [icell p t] ++ inner ++ [szero] in
  div o i = OK dv ->
  length dv = length j ->
  let gamma_dl := if String.eqb d "xcn" then gamma_dl_n p else gamma_dl_p p in
  sis_zero gamma_dl = false ->
  (let* current_bcs := bcs_current d t in
   current_conservation d c e j current_bcs) self =
  (OK (np.scale (sdiv sone gamma_dl) (zip_with ssub dv j)), self).
Proof.
  intros Hd Hp Hops Ho Hc He L inner i Hdiv Lj gamma_dl Hz.
  rewrite (bind_OK _ _ self _ self (bcs_current_run self p d t Hd Hp)).
  assert (forall lbc rbc, div o (lbc ++ inner ++ rbc) = OK dv ->
            current_conservation d c e j (lbc, rbc) self =
            (OK (np.scale (sdiv sone gamma_dl) (zip_with ssub dv j)), self)) as Hcc.
  { intros lbc rbc Hdiv'.
    rewrite (current_conservation_run self p ops o d c e j (lbc, rbc)
               (lbc ++ inner ++ rbc) dv); try done.
    - unfold np.subtract. by rewrite broadcast_same.
    - rewrite (macinnes_run self ops o d c e gc ge) by done.
      unfold np.add. rewrite broadcast_same; [ done | ].
      by rewrite !length_scale. }
  subst i. destruct Hd as [-> | ->]; cbn [String.eqb Ascii.eqb Bool.eqb] in *;
    by apply Hcc.
Qed.
End Composition.

(** ** The further properties on the rational configuration *)

Local Open Scope Q_scope.

Lemma initial_conditions_mesh_lengths_witness :
  fst (initial_conditions demo) =
  fst (initial_conditions
         {| param := Some demo_param; operators := None;
            mesh := Some {| xc := [7; 8; 11]; xcn := [7; 8]; xcp := [0; 0] |} |}).
Proof.
  refine (initial_conditions_mesh_lengths demo _ demo_mesh _ _ _ _ _ _ _);
    reflexivity.
Defined.

Lemma cation_conservation_raises_witness :
  cation_conservation [1; 4; 9] [2; 0; 1] ([0], [0])
    (with_operators (<["xc" := no_grad]> ∅))
  = (Raise (OperatorError "grad"), with_operators (<["xc" := no_grad]> ∅)).
Proof.
  refine (proj1 (proj2 (proj2
            (cation_conservation_raises
               (with_operators (<["xc" := no_grad]> ∅))
               [1; 4; 9] [2; 0; 1] [0] [0])))
            (<["xc" := no_grad]> ∅) no_grad (OperatorError "grad") _ _ _);
    reflexivity.
Defined.

Lemma macinnes_raises_witness :
  macinnes "xcn" [1; 4] [2; 3] ([0], [5]) demo_no_operators
  = (Raise AttributeError, demo_no_operators) /\
  macinnes "sep" [1; 4] [2; 3] ([0], [5]) demo = (Raise KeyError, demo).
Proof.
  split.
  - refine (proj1 (macinnes_raises demo_no_operators "xcn" [1; 4] [2; 3]
                     ([0], [5])) _).
    reflexivity.
  - refine (proj1 (proj2 (macinnes_raises demo "sep" [1; 4] [2; 3] ([0], [5])))
              demo_operators _ _); reflexivity.
Defined.

(** A concentration on two cells against a potential on four: the single
    gradient value is broadcast, and no exception is raised. *)
Lemma macinnes_shapes_witness :
  (macinnes "xcn" [1; 4] [2; 3; 7; 9] ([0], [5]) demo = (Raise ValueError, demo) <->
   length [3] <> length [1; 4; 2] /\ length [3] <> 1%nat /\
   length [1; 4; 2] <> 1%nat) /\
  (length [3] = length [1; 4; 2] \/ length [3] = 1%nat \/
   length [1; 4; 2] = 1%nat ->
   exists i, macinnes "xcn" [1; 4] [2; 3; 7; 9] ([0], [5]) demo = (OK i, demo)) /\
  (forall i, macinnes "xcn" [1; 4] [2; 3; 7; 9] ([0], [5]) demo = (OK i, demo) ->
   length i =
   (length [0] + (if decide (length [3] = 1%nat) then length [1; 4; 2]
                  else length [3]) + length [5])%nat).
Proof.
  refine (macinnes_shapes demo demo_operators unit_fv "xcn"
            [1; 4] [2; 3; 7; 9] [3] [1; 4; 2] [0] [5] _ _ _ _);
    reflexivity.
Defined.

Lemma current_conservation_closed_form_witness :
  current_conservation "xcp" [1; 4; 9] [2; 3; 7] [1; 1; 1] ([5], [0]) demo =
  (OK (np.scale (1 / 4)
         (zip_with Qminus
            (np.diff ([5] ++ zip_with Qplus (np.scale 1 [3; 5]) (np.scale 1 [1; 4])
                       ++ [0]))
            [1; 1; 1])), demo).
Proof.
  refine (current_conservation_closed_form demo demo_param demo_operators unit_fv
            "xcp" [1; 4; 9] [2; 3; 7] [1; 1; 1] [5] [0] [3; 5] [1; 4]
            (np.diff ([5] ++ zip_with Qplus (np.scale 1 [3; 5]) (np.scale 1 [1; 4])
                       ++ [0]))
            _ _ _ _ _ _ _ _ _ _);
    first [ by right | reflexivity ].
Defined.

Lemma current_conservation_raises_witness :
  current_conservation "xcn" [1; 4] [2; 3] [1; 1] ([0], [5])
    (with_operators (<["xcn" := no_div]> ∅))
  = (Raise (OperatorError "div"), with_operators (<["xcn" := no_div]> ∅)) /\
  current_conservation "xcn" [1; 4] [2; 3] [1; 1] ([0], [5]) demo_no_param
  = (Raise AttributeError, demo_no_param) /\
  current_conservation "xcn" [1; 4] [2; 3] [1; 1] ([0], [5]) demo_zero_gamma
  = (Raise ZeroDivisionError, demo_zero_gamma).
Proof.
  split_and!.
  - refine (proj1 (proj2 (proj2 (proj2
              (current_conservation_raises
                 (with_operators (<["xcn" := no_div]> ∅))
                 "xcn" [1; 4] [2; 3] [1; 1] ([0], [5]) (or_introl eq_refl)))))
              [0; 4; 5] demo_param (<["xcn" := no_div]> ∅) no_div
              (OperatorError "div") _ _ _ _ _ _); reflexivity.
  - refine (proj1 (proj2
              (current_conservation_raises demo_no_param
                 "xcn" [1; 4] [2; 3] [1; 1] ([0], [5]) (or_introl eq_refl)))
              [0; 4; 5] _ _); reflexivity.
  - refine (proj1 (proj2 (proj2
              (current_conservation_raises demo_zero_gamma
                 "xcn" [1; 4] [2; 3] [1; 1] ([0], [5]) (or_introl eq_refl))))
              [0; 4; 5] zero_gamma_param _ _ _); reflexivity.
Defined.

(** A concentration raised by 1 in every cell has the same differences. *)
Lemma gradients_only_witness :
  cation_conservation [1; 4; 9] [2; 0; 1] ([0], [0]) demo =
  cation_conservation [2; 5; 10] [2; 0; 1] ([0], [0]) demo.
Proof.
  refine (proj1 (gradients_only demo demo_operators _)
            [1; 4; 9] [2; 5; 10] [2; 0; 1] ([0], [0]) _).
  - reflexivity.
  - intros o Ho.
    assert (demo_operators !! "xc" = Some unit_fv) as Hxc by reflexivity.
    rewrite Hxc in Ho. injection Ho as <-. reflexivity.
Defined.

Lemma cation_conservation_no_flux_witness :
  (let* flux_bcs := bcs_cation_flux in
   cation_conservation [1; 4; 9] [2; 0; 1] flux_bcs) demo =
  (OK (zip_with Qplus
         (np.negative (np.diff ([0] ++ np.negative (np.diff [1; 4; 9]) ++ [0])))
         (np.scale (1 # 2) [2; 0; 1])), demo).
Proof.
  refine (cation_conservation_no_flux demo demo_param demo_operators unit_fv
            [1; 4; 9] [2; 0; 1] (np.diff [1; 4; 9])
            (np.diff ([0] ++ np.negative (np.diff [1; 4; 9]) ++ [0]))
            _ _ _ _ _ _);
    reflexivity.
Defined.

Lemma current_conservation_applied_current_witness :
  (let* current_bcs := bcs_current "xcn" (7 # 3) in
   current_conservation "xcn" [1; 4] [2; 3] [1; 1] current_bcs) demo =
  (OK (np.scale (1 / 2)
         (zip_with Qminus
            (np.diff ([0] ++ zip_with Qplus (np.scale 1 [3]) (np.scale 1 [1])
                       ++ [5]))
            [1; 1])), demo).
Proof.
  refine (current_conservation_applied_current demo demo_param demo_operators
            unit_fv "xcn" [1; 4] [2; 3] [1; 1] (7 # 3) [3] [1]
            (np.diff ([0] ++ zip_with Qplus (np.scale 1 [3]) (np.scale 1 [1])
                       ++ [5]))
            _ _ _ _ _ _ _ _ _ _);
    first [ by left | reflexivity ].
Defined.
